(** * Robinhood trading dashboard: the computations of [robinhood_app.py]

    The script loads a table of closed positions and derives a summary strip,
    a chronological and a monthly cumulative profit/loss series, per-instrument
    rankings and a profitable/losing partition of the rows.

    Conventions of the embedding.
    - A data frame is the list of its rows, in index order.
    - Currency amounts are exact rationals ([Q]); equalities between sums are
      stated with [==], the equality of rationals.  The rounding of binary
      floating point is not represented.
    - Every cell of a row is present: the types below have no null.
    - [sort_values] is called by the script with pandas' default
      [kind='quicksort'], whose order among equal keys is left open by pandas.
      The sorting routine is therefore an argument ([sorter]) of every
      definition that sorts, and the theorems ask of it only what pandas
      promises for every kind: the result is a reordering of the input in
      which the keys never decrease. *)

From Stdlib Require Import String Ascii.
From Stdlib Require Import List ZArith QArith Lia Lqa Bool Arith.
From Stdlib Require Import Permutation Sorted.
Import ListNotations.

Local Open Scope Z_scope.

(** ** Data model *)

Inductive month_name : Type :=
| Jan | Feb | Mar | Apr | May | Jun | Jul | Aug | Sep | Oct | Nov | Dec.

Definition month_number (m : month_name) : Z :=
  match m with
  | Jan => 1 | Feb => 2 | Mar => 3 | Apr => 4 | May => 5 | Jun => 6
  | Jul => 7 | Aug => 8 | Sep => 9 | Oct => 10 | Nov => 11 | Dec => 12
  end.

Definition month_of_number (n : Z) : month_name :=
  match n with
  | 1 => Jan | 2 => Feb | 3 => Mar | 4 => Apr | 5 => May | 6 => Jun
  | 7 => Jul | 8 => Aug | 9 => Sep | 10 => Oct | 11 => Nov | _ => Dec
  end.

(** A parsed [sell_date]: a calendar date. *)
Record date : Type := mkDate { year : Z; month : month_name; day : Z }.

(** One closed position, the columns of [closed_positions.csv]. *)
Record row : Type := mkRow {
  instrument : string;
  sell_date : date;
  realized_profit_loss : Q;
  holding_period_days : Z
}.

Definition table : Type := list row.

(** Chronological order of dates. *)
Definition date_ltb (a b : date) : bool :=
  (year a <? year b)
  || ((year a =? year b)
      && ((month_number (month a) <? month_number (month b))
          || ((month_number (month a) =? month_number (month b))
              && (day a <? day b)))).

Definition date_leb (a b : date) : bool := negb (date_ltb b a).

Definition date_eqb (a b : date) : bool :=
  (year a =? year b) && (month_number (month a) =? month_number (month b))
  && (day a =? day b).

(** ** Column reductions *)

(** [Series.sum()]: the sum of a column, 0 on an empty column. *)
Definition sum_Q (l : list Q) : Q := fold_left Qplus l 0%Q.

Definition sum_Z (l : list Z) : Z := fold_left Z.add l 0.

(** [Series.cumsum()]: running sum; the first value is the first cell. *)
Fixpoint cumsum_from (acc : Q) (l : list Q) : list Q :=
  match l with
  | [] => []
  | x :: l' => (acc + x)%Q :: cumsum_from (acc + x)%Q l'
  end.

Definition cumsum (l : list Q) : list Q :=
  match l with
  | [] => []
  | x :: l' => x :: cumsum_from x l'
  end.

(** [Series.mean()]: [None] stands for NaN, the mean of an empty column. *)
Definition mean_Z (l : list Z) : option Q :=
  match l with
  | [] => None
  | _ => Some (inject_Z (sum_Z l) / inject_Z (Z.of_nat (length l)))%Q
  end.

(** ** Overall performance summary (lines 57-68) *)

Definition total_realized_pl (df : table) : Q :=
  sum_Q (map realized_profit_loss df).

Definition total_trades (df : table) : nat := length df.

(** The comparisons of a P/L cell with 0 used by the boolean masks. *)
Definition Qlt_bool (x y : Q) : bool :=
  (Qnum x * QDen y <? Qnum y * QDen x)%Z.

(** [closed_positions_df['realized_profit_loss'] > 0] *)
Definition mask_gt0 (r : row) : bool := Qlt_bool 0 (realized_profit_loss r).

(** [closed_positions_df['realized_profit_loss'] <= 0] *)
Definition mask_le0 (r : row) : bool := Qle_bool (realized_profit_loss r) 0.

Definition profitable_trades_count (df : table) : nat :=
  length (filter mask_gt0 df).

(** [(profitable_trades_count / total_trades) * 100 if total_trades > 0 else 0] *)
Definition win_rate (df : table) : Q :=
  if (0 <? total_trades df)%nat
  then (inject_Z (Z.of_nat (profitable_trades_count df))
        / inject_Z (Z.of_nat (total_trades df)) * 100)%Q
  else 0%Q.

Definition avg_holding_period (df : table) : option Q :=
  mean_Z (map holding_period_days df).

(** ** Sorting ([DataFrame.sort_values]) *)

(** A sorting routine: given the order in which two rows may follow each
    other, it reorders a frame. *)
Definition sorter : Type := forall A : Type, (A -> A -> bool) -> list A -> list A.

(** What pandas promises of [sort_values] for every [kind]: [s] holds the
    rows of [l], and a row never comes before one that must precede it. *)
Definition sorts {A : Type} (le : A -> A -> bool) (l s : list A) : Prop :=
  Permutation l s /\ StronglySorted (fun x y => le x y = true) s.

(** [kind='stable']: insertion from the right keeps equal keys in input order. *)
Fixpoint insert_sorted {A : Type} (le : A -> A -> bool) (x : A) (s : list A) : list A :=
  match s with
  | [] => [x]
  | y :: s' => if le x y then x :: y :: s' else y :: insert_sorted le x s'
  end.

Definition stable_sort : sorter :=
  fun A le l => fold_right (insert_sorted le) [] l.

(** The row orders handed to [sort_values]. *)
Definition by_sell_date (a b : row) : bool := date_leb (sell_date a) (sell_date b).

(** ** Cumulative P/L over time (lines 28-29) *)

(** [df[name] = df[col].cumsum()]: the frame with the running sum attached. *)
Definition with_cumulative_pl {A : Type} (pl : A -> Q) (l : list A) : list (A * Q) :=
  combine l (cumsum (map pl l)).

(** Line 28. *)
Definition sorted_positions (sv : sorter) (df : table) : table :=
  sv row by_sell_date df.

(** Lines 28-29: each row with its [cumulative_pl]. *)
Definition closed_positions_df_sorted (sv : sorter) (df : table) : list (row * Q) :=
  with_cumulative_pl realized_profit_loss (sorted_positions sv df).



(** ** Monthly cumulative P/L (lines 32-33) *)

(** Months counted from year 0: the bucket a date falls in. *)
Definition month_index (d : date) : Z :=
  12 * year d + (month_number (month d) - 1).

Definition is_leap_year (y : Z) : bool :=
  ((y mod 4 =? 0) && negb (y mod 100 =? 0)) || (y mod 400 =? 0).

Definition days_in_month (y : Z) (m : month_name) : Z :=
  match m with
  | Feb => if is_leap_year y then 29 else 28
  | Apr | Jun | Sep | Nov => 30
  | _ => 31
  end.

(** The label of a bucket under the ['ME'] rule: the last day of the month. *)
Definition month_end (k : Z) : date :=
  let y := k / 12 in
  let m := month_of_number (k mod 12 + 1) in
  mkDate y m (days_in_month y m).

Definition earliest (d : date) (l : list date) : date :=
  fold_left (fun m x => if date_ltb x m then x else m) l d.

Definition latest (d : date) (l : list date) : date :=
  fold_left (fun m x => if date_ltb m x then x else m) l d.

Record month_row : Type := mkMonth {
  month_label : date;
  month_realized_profit_loss : Q
}.

(** The rows of a frame whose [sell_date] falls in month [k]. *)
Definition in_month (k : Z) (r : row) : bool := month_index (sell_date r) =? k.

(** The sum of [realized_profit_loss] over the rows of month [k]. *)
Definition month_sum (rows : table) (k : Z) : Q :=
  sum_Q (map realized_profit_loss (filter (in_month k) rows)).

Definition month_bucket (rows : table) (k : Z) : month_row :=
  mkMonth (month_end k) (month_sum rows k).

(** [set_index('sell_date').resample('ME')['realized_profit_loss'].sum()]:
    one bucket per calendar month from the month of the smallest index value
    through the month of the largest; the sum of an empty bucket is 0. *)
Definition resample_ME_sum (rows : table) : list month_row :=
  match rows with
  | [] => []
  | r :: rs =>
      let lo := month_index (earliest (sell_date r) (map sell_date rs)) in
      let hi := month_index (latest (sell_date r) (map sell_date rs)) in
      map (fun i => month_bucket rows (lo + Z.of_nat i))
          (seq 0 (Z.to_nat (hi - lo + 1)))
  end.

(** Lines 32-33. *)
Definition monthly_pl (sv : sorter) (df : table) : list (month_row * Q) :=
  with_cumulative_pl month_realized_profit_loss
                     (resample_ME_sum (sorted_positions sv df)).

(** ** Instrument performance (lines 36-42) *)

Record instrument_row : Type := mkInstrument {
  ip_instrument : string;
  total_pl : Q;
  num_trades : nat;
  ip_avg_holding_period : option Q
}.

(** The group keys of [groupby('instrument')]: the distinct instruments,
    in increasing order ([sort=True]). *)
Definition group_keys (df : table) : list string :=
  stable_sort string String.leb (nodup string_dec (map instrument df)).

Definition group_of (df : table) (k : string) : table :=
  filter (fun r => String.eqb (instrument r) k) df.

Definition aggregate (df : table) (k : string) : instrument_row :=
  let g := group_of df k in
  mkInstrument k
               (sum_Q (map realized_profit_loss g))
               (length g)
               (mean_Z (map holding_period_days g)).

Definition instrument_performance (df : table) : list instrument_row :=
  map (aggregate df) (group_keys df).

Definition by_total_pl_descending (a b : instrument_row) : bool :=
  Qle_bool (total_pl b) (total_pl a).

Definition by_total_pl_ascending (a b : instrument_row) : bool :=
  Qle_bool (total_pl a) (total_pl b).

(** [DataFrame.head(n)] *)
Definition head {A : Type} (n : nat) (l : list A) : list A := firstn n l.

Definition top_10_profitable (sv : sorter) (df : table) : list instrument_row :=
  head 10 (sv instrument_row by_total_pl_descending (instrument_performance df)).

Definition bottom_10_losing (sv : sorter) (df : table) : list instrument_row :=
  head 10 (sv instrument_row by_total_pl_ascending (instrument_performance df)).

(** ** Holding period: profitable vs. losing trades (lines 114-121) *)

Definition profitable_trades (df : table) : table := filter mask_gt0 df.

Definition losing_trades (df : table) : table := filter mask_le0 df.

Inductive trade_outcome : Type := Profitable | Losing.

(** [DataFrame.assign(Trade_Outcome=...)] *)
Definition assign_outcome (o : trade_outcome) (l : table) : list (row * trade_outcome) :=
  map (fun r => (r, o)) l.

Definition combined_holding (df : table) : list (row * trade_outcome) :=
  assign_outcome Profitable (profitable_trades df)
  ++ assign_outcome Losing (losing_trades df).

(** ** The script as a program over a store of data frames

    Data frames are objects: a variable of the script holds a reference, and
    [df[name] = column] changes the object that every holder of the reference
    sees.  The store maps references to frames; each pandas call that returns
    a new frame allocates one. *)

Inductive exn : Type :=
| FileNotFoundError   (* no such file *)
| EmptyDataError      (* pandas.errors.EmptyDataError: no columns to parse *)
| ParserError         (* pandas.errors.ParserError: malformed CSV *)
| KeyError            (* no column 'sell_date' *)
| DateParseError      (* a 'sell_date' cell is not a date *)
| TypeError.          (* a frame of the wrong shape was handed to an operation *)

(** The state of [closed_positions.csv] in the working directory. *)
Inductive input_file : Type :=
| NoFile
| EmptyFile
| MalformedCsv
| NoSellDateColumn
| BadDateCell
| WellFormed (t : table).

Definition ref : Type := nat.

Inductive cells : Type :=
| Positions (rows : table)
| Months (rows : list month_row)
| Instruments (rows : list instrument_row).

Inductive column : Type :=
| NumCol (vs : list Q)
| OutcomeCol (vs : list trade_outcome).

(** A frame: its rows as loaded or computed, and the columns assigned later. *)
Record frame : Type := mkFrame { body : cells; assigned : list (string * column) }.

Inductive metric_value : Type :=
| Dollars (v : Q) | Count (n : nat) | Percent (v : Q) | Days (v : option Q).

Inductive ui_event : Type :=
| UiError (msg : string)
| UiText (what : string)
| UiMetric (label : string) (v : metric_value)
| UiChart (title : string) (data : list ref).

Record world : Type := mkWorld {
  file : input_file;
  heap : list (ref * frame);
  next : ref;
  page : list ui_event
}.

Inductive result (A : Type) : Type :=
| Ok (a : A)
| Stopped              (* [st.stop()]: the run ends here *)
| Raised (e : exn).    (* an exception nobody caught *)

Arguments Ok {A} a.
Arguments Stopped {A}.
Arguments Raised {A} e.

Definition M (A : Type) : Type := world -> result A * world.

Definition ret {A : Type} (a : A) : M A := fun w => (Ok a, w).

Definition bind {A B : Type} (m : M A) (k : A -> M B) : M B :=
  fun w =>
    match m w with
    | (Ok a, w') => k a w'
    | (Stopped, w') => (Stopped, w')
    | (Raised e, w') => (Raised e, w')
    end.

Notation "x <- m ;; k" := (bind m (fun x => k))
  (at level 61, m at next level, right associativity).
Notation "m ;;; k" := (bind m (fun _ => k))
  (at level 61, right associativity).

Definition raise {A : Type} (e : exn) : M A := fun w => (Raised e, w).

(** [try: body except FileNotFoundError: handler] *)
Definition try_except_FileNotFoundError {A : Type} (body handler : M A) : M A :=
  fun w =>
    match body w with
    | (Raised FileNotFoundError, w') => handler w'
    | other => other
    end.

Definition st_stop {A : Type} : M A := fun w => (Stopped, w).

Definition emit (e : ui_event) : M unit :=
  fun w => (Ok tt, mkWorld (file w) (heap w) (next w) (page w ++ [e])).

Definition st_error (msg : string) : M unit := emit (UiError msg).

Fixpoint find_frame (r : ref) (h : list (ref * frame)) : option frame :=
  match h with
  | [] => None
  | (r', f) :: h' => if Nat.eqb r r' then Some f else find_frame r h'
  end.

Fixpoint store_frame (r : ref) (f : frame) (h : list (ref * frame)) : list (ref * frame) :=
  match h with
  | [] => []
  | (r', f') :: h' =>
      if Nat.eqb r r' then (r', f) :: h' else (r', f') :: store_frame r f h'
  end.

Definition alloc (f : frame) : M ref :=
  fun w => (Ok (next w), mkWorld (file w) ((next w, f) :: heap w) (S (next w)) (page w)).

Definition get_frame (r : ref) : M frame :=
  fun w => match find_frame r (heap w) with
           | Some f => (Ok f, w)
           | None => (Raised KeyError, w)
           end.

Definition positions (r : ref) : M table :=
  f <- get_frame r ;;
  match body f with Positions rows => ret rows | _ => raise TypeError end.

Definition months (r : ref) : M (list month_row) :=
  f <- get_frame r ;;
  match body f with Months rows => ret rows | _ => raise TypeError end.

Definition instruments (r : ref) : M (list instrument_row) :=
  f <- get_frame r ;;
  match body f with Instruments rows => ret rows | _ => raise TypeError end.

(** [df[name] = col]: the frame behind [r] is changed in place. *)
Definition setitem (r : ref) (name : string) (col : column) : M unit :=
  f <- get_frame r ;;
  fun w =>
    (Ok tt,
     mkWorld (file w)
             (store_frame r (mkFrame (body f) (assigned f ++ [(name, col)])) (heap w))
             (next w) (page w)).

(** Lines 13-14: [pd.read_csv] and [pd.to_datetime] on the file at hand. *)
Definition read_csv_to_datetime : M ref :=
  fun w =>
    match file w with
    | NoFile => (Raised FileNotFoundError, w)
    | EmptyFile => (Raised EmptyDataError, w)
    | MalformedCsv => (Raised ParserError, w)
    | NoSellDateColumn => (Raised KeyError, w)
    | BadDateCell => (Raised DateParseError, w)
    | WellFormed t => alloc (mkFrame (Positions t) []) w
    end.

Definition data_files_not_found : string :=
  "Error: Data files not found. Make sure 'closed_positions.csv' (and others) are in the same directory.".

(** Lines 11-22. *)
Definition load_data : M ref :=
  try_except_FileNotFoundError
    read_csv_to_datetime
    (st_error data_files_not_found ;;; st_stop).

(** [df.sort_values(by='sell_date')]: a new frame. *)
Definition sort_values_by_sell_date (sv : sorter) (r : ref) : M ref :=
  rows <- positions r ;;
  alloc (mkFrame (Positions (sv row by_sell_date rows)) []).

(** [df.sort_values(by='total_pl', ascending=...).head(10)]: a new frame. *)
Definition sort_values_head (sv : sorter) (le : instrument_row -> instrument_row -> bool)
           (r : ref) : M ref :=
  rows <- instruments r ;;
  alloc (mkFrame (Instruments (head 10 (sv instrument_row le rows))) []).

(** [df[mask]]: a new frame with the selected rows. *)
Definition select_rows (mask : row -> bool) (r : ref) : M ref :=
  rows <- positions r ;;
  alloc (mkFrame (Positions (filter mask rows)) []).

(** [df.assign(Trade_Outcome=o)]: a new frame, the receiver is not changed. *)
Definition assign_Trade_Outcome (o : trade_outcome) (r : ref) : M ref :=
  f <- get_frame r ;;
  match body f with
  | Positions rows =>
      alloc (mkFrame (Positions rows)
                     (assigned f ++ [("Trade_Outcome"%string, OutcomeCol (repeat o (length rows)))]))
  | _ => raise TypeError
  end.

(** [pd.concat([a, b])] of two frames of positions carrying [Trade_Outcome]. *)
Definition concat (a b : ref) : M ref :=
  fa <- get_frame a ;;
  fb <- get_frame b ;;
  match body fa, assigned fa, body fb, assigned fb with
  | Positions ra, [(na, OutcomeCol ca)], Positions rb, [(nb, OutcomeCol cb)] =>
      if String.eqb na nb
      then alloc (mkFrame (Positions (ra ++ rb)) [(na, OutcomeCol (ca ++ cb))])
      else raise TypeError
  | _, _, _, _ => raise TypeError
  end.

(** The variables the script has bound when it ends. *)
Record dashboard : Type := mkDashboard {
  closed_positions_df_ref : ref;
  closed_positions_df_sorted_ref : ref;
  monthly_pl_ref : ref;
  instrument_performance_ref : ref;
  top_10_profitable_ref : ref;
  bottom_10_losing_ref : ref;
  total_realized_pl_value : Q;
  total_trades_value : nat;
  win_rate_value : Q;
  avg_holding_period_value : option Q;
  profitable_trades_ref : ref;
  losing_trades_ref : ref;
  combined_holding_ref : ref
}.

(** Lines 24-129, statement by statement. *)
Definition script (sv : sorter) : M dashboard :=
  (* 24 *) df <- load_data ;;
  (* 28 *) sorted <- sort_values_by_sell_date sv df ;;
  (* 29 *) s <- positions sorted ;;
           setitem sorted "cumulative_pl" (NumCol (cumsum (map realized_profit_loss s))) ;;;
  (* 32 *) s <- positions sorted ;;
           monthly <- alloc (mkFrame (Months (resample_ME_sum s)) []) ;;
  (* 33 *) m <- months monthly ;;
           setitem monthly "cumulative_pl" (NumCol (cumsum (map month_realized_profit_loss m))) ;;;
  (* 36 *) t <- positions df ;;
           perf <- alloc (mkFrame (Instruments (instrument_performance t)) []) ;;
  (* 41 *) top <- sort_values_head sv by_total_pl_descending perf ;;
  (* 42 *) bottom <- sort_values_head sv by_total_pl_ascending perf ;;
  (* 46 *) emit (UiText "My Robinhood Trading Performance Analysis") ;;;
  (* 54 *) emit (UiText "Overall Performance Summary") ;;;
  (* 57 *) t <- positions df ;;
           emit (UiMetric "Total Realized P/L" (Dollars (total_realized_pl t))) ;;;
  (* 60 *) emit (UiMetric "Total Closed Trades" (Count (total_trades t))) ;;;
  (* 63 *) emit (UiMetric "Win Rate" (Percent (win_rate t))) ;;;
  (* 67 *) emit (UiMetric "Avg Holding Period" (Days (avg_holding_period t))) ;;;
  (* 72 *) emit (UiText "Cumulative Profit/Loss Trend") ;;;
  (* 75 *) emit (UiChart "Cumulative Realized Profit/Loss Over Time" [sorted; monthly]) ;;;
  (* 84 *) emit (UiText "Instrument Performance Breakdown") ;;;
  (* 89 *) emit (UiChart "Top 10 Most Profitable Instruments" [top]) ;;;
  (* 97 *) emit (UiChart "Top 10 Least Profitable Instruments" [bottom]) ;;;
  (* 105 *) emit (UiText "Holding Period Analysis") ;;;
  (* 108 *) emit (UiChart "Distribution of Holding Periods (Days)" [df]) ;;;
  (* 114 *) profitable <- select_rows mask_gt0 df ;;
  (* 115 *) losing <- select_rows mask_le0 df ;;
  (* 119 *) p <- assign_Trade_Outcome Profitable profitable ;;
  (* 120 *) l <- assign_Trade_Outcome Losing losing ;;
  (* 118 *) combined <- concat p l ;;
  (* 123 *) emit (UiChart "Holding Period Distribution: Profitable vs. Losing Trades" [combined]) ;;;
  (* 132 *) emit (UiChart "Distribution of Realized Profit/Loss per Trade" [df]) ;;;
  ret (mkDashboard df sorted monthly perf top bottom
                   (total_realized_pl t) (total_trades t) (win_rate t)
                   (avg_holding_period t) profitable losing combined).

(** A fresh run of the script on a given file. *)
Definition start (f : input_file) : world := mkWorld f [] 0%nat [].

Definition run (sv : sorter) (f : input_file) : result dashboard * world :=
  script sv (start f).

(** The frame a variable of the script refers to when the run ends. *)
Definition frame_at (r : ref) (w : world) : option frame := find_frame r (heap w).

(** ** numpy's index sort for [kind='quicksort']

    With the default kind, pandas sorts a single column by handing its keys
    to numpy's [argsort(kind='quicksort')].  The portable routine of numpy
    ([npysort/quicksort.cpp], [aquicksort]) is an introsort on an array of
    row numbers [tosort], initially [0, 1, ..., n-1]: median-of-three
    partitioning while a segment has more than [SMALL_QUICKSORT + 1] cells,
    insertion sort below that, heapsort once the depth budget is used up.
    Pointers into [tosort] are positions here. *)

Section NumpyQuicksort.

Context {K : Type} (less : K -> K -> bool) (d : K) (v : list K).

Definition SMALL_QUICKSORT : nat := 16.

Definition npy_get_msb (n : nat) : Z := Z.log2 (Z.of_nat n).

(** The key of the row whose number is in cell [p]. *)
Definition key_at (a : list nat) (p : nat) : K := nth (nth p a 0%nat) v d.

Fixpoint put (a : list nat) (p x : nat) : list nat :=
  match a, p with
  | [], _ => []
  | _ :: a', O => x :: a'
  | y :: a', S p' => y :: put a' p' x
  end.

(** [INTP_SWAP] of the cells at [p] and [q]. *)
Definition intp_swap (a : list nat) (p q : nat) : list nat :=
  put (put a p (nth q a 0%nat)) q (nth p a 0%nat).

(** Swap the cells at [p] and [q] when the key at [p] is less than the key at [q]. *)
Definition swap_if_less (a : list nat) (p q : nat) : list nat :=
  if less (key_at a p) (key_at a q) then intp_swap a p q else a.

(** [do ++pi while less(key at pi, vp)] *)
Fixpoint scan_up (fuel : nat) (a : list nat) (vp : K) (pi : nat) : nat :=
  match fuel with
  | O => pi
  | S fuel' =>
      if less (key_at a (S pi)) vp then scan_up fuel' a vp (S pi) else S pi
  end.

(** [do --pj while less(vp, key at pj)] *)
Fixpoint scan_down (fuel : nat) (a : list nat) (vp : K) (pj : nat) : nat :=
  match fuel with
  | O => pj
  | S fuel' =>
      if less vp (key_at a (pred pj)) then scan_down fuel' a vp (pred pj) else pred pj
  end.

(** The [for (;;)] loop of the partition step. *)
Fixpoint partition_loop (fuel : nat) (a : list nat) (vp : K) (pi pj : nat)
  : list nat * nat :=
  match fuel with
  | O => (a, pi)
  | S fuel' =>
      let pi' := scan_up (length a) a vp pi in
      let pj' := scan_down (length a) a vp pj in
      if (pj' <=? pi')%nat then (a, pi')
      else partition_loop fuel' (intp_swap a pi' pj') vp pi' pj'
  end.

(** One partition of the segment [pl .. pr]; returns the pivot's position. *)
Definition partition_step (a : list nat) (pl pr : nat) : list nat * nat :=
  let pm := (pl + Nat.div2 (pr - pl))%nat in
  let a := swap_if_less a pm pl in
  let a := swap_if_less a pr pm in
  let a := swap_if_less a pm pl in
  let vp := key_at a pm in
  let a := intp_swap a pm (pr - 1) in
  let '(a, pi) := partition_loop (length a) a vp pl (pr - 1)%nat in
  (intp_swap a pi (pr - 1), pi).

(** [while pj > pl and less(vp, key at pj-1)]: move cell [pj-1] up, step down. *)
Fixpoint shift_up (fuel : nat) (a : list nat) (vp : K) (pl pj : nat) : list nat * nat :=
  match fuel with
  | O => (a, pj)
  | S fuel' =>
      if (pl <? pj)%nat && less vp (key_at a (pj - 1))
      then shift_up fuel' (put a pj (nth (pj - 1) a 0%nat)) vp pl (pj - 1)%nat
      else (a, pj)
  end.

(** The insertion sort that finishes a short segment [pl .. pr]. *)
Definition insertion_pass (pl : nat) (a : list nat) (pi : nat) : list nat :=
  let vi := nth pi a 0%nat in
  let '(a', pj) := shift_up (length a) a (nth vi v d) pl pi in
  put a' pj vi.

Definition insertion_sort (a : list nat) (pl pr : nat) : list nat :=
  fold_left (insertion_pass pl) (seq (S pl) (pr - pl)) a.

(** [aheapsort]: the segment of [n] cells starting at [pl], addressed from 1. *)
Fixpoint sift_down (fuel : nat) (a : list nat) (pl n tmp i j : nat) : list nat :=
  match fuel with
  | O => put a (pl + i - 1) tmp
  | S fuel' =>
      if (j <=? n)%nat then
        let j := if (j <? n)%nat && less (key_at a (pl + j - 1)) (key_at a (pl + j))
                 then S j else j in
        if less (nth tmp v d) (key_at a (pl + j - 1))
        then sift_down fuel' (put a (pl + i - 1) (nth (pl + j - 1) a 0%nat))
                       pl n tmp j (j + j)%nat
        else put a (pl + i - 1) tmp
      else put a (pl + i - 1) tmp
  end.

Definition heapify (pl n : nat) (a : list nat) (l : nat) : list nat :=
  sift_down n a pl n (nth (pl + l - 1) a 0%nat) l (2 * l)%nat.

Definition pop_max (pl : nat) (a : list nat) (n : nat) : list nat :=
  let tmp := nth (pl + n - 1) a 0%nat in
  let a := put a (pl + n - 1) (nth pl a 0%nat) in
  sift_down n a pl (n - 1) tmp 1 2.

Definition aheapsort (a : list nat) (pl n : nat) : list nat :=
  let a := fold_left (heapify pl n) (rev (seq 1 (Nat.div2 n))) a in
  fold_left (pop_max pl) (rev (seq 2 (n - 1))) a.

(** The main loop.  [popped] tells whether the segment was just taken from
    the stack (or is the initial one): only then is the depth budget tested. *)
Fixpoint aquicksort_loop (fuel : nat) (popped : bool) (cdepth : Z)
         (a : list nat) (pl pr : nat) : list nat :=
  match fuel with
  | O => a
  | S fuel' =>
      if popped && (cdepth <? 0) then aheapsort a pl (pr - pl + 1)
      else if (SMALL_QUICKSORT <? pr - pl)%nat then
        let '(a, pi) := partition_step a pl pr in
        let cdepth := cdepth - 1 in
        if (pi - pl <? pr - pi)%nat
        then let a := aquicksort_loop fuel' false cdepth a pl (pi - 1) in
             aquicksort_loop fuel' true cdepth a (S pi) pr
        else let a := aquicksort_loop fuel' false cdepth a (S pi) pr in
             aquicksort_loop fuel' true cdepth a pl (pi - 1)
      else insertion_sort a pl pr
  end.

Definition aquicksort : list nat :=
  let num := length v in
  aquicksort_loop (S num) true (npy_get_msb num * 2) (seq 0 num) 0 (num - 1).

End NumpyQuicksort.

(** [sort_values] with [kind='quicksort'] on the portable numpy routine:
    rows are taken in the order of the sorted row numbers. *)
Definition numpy_quicksort : sorter :=
  fun A le l =>
    match l with
    | [] => []
    | d :: _ => map (fun i => nth i l d) (aquicksort (fun x y => negb (le y x)) d l)
    end.


(** ** Reference notions used in the statements *)

(** The number of rows whose realized P/L is strictly positive. *)
Definition count_wins (df : table) : nat :=
  length (filter (fun r => if Qlt_le_dec 0 (realized_profit_loss r) then true else false) df).

(** The spec's worked example: three trades on increasing dates. *)
Definition example_trades : table :=
  [ mkRow "AAPL" (mkDate 2024 Jan 5) 100 3;
    mkRow "TSLA" (mkDate 2024 Jan 9) (-50) 1;
    mkRow "AAPL" (mkDate 2024 Mar 1) 25 10 ].

(** The same three trades in another order of the file. *)
Definition shuffled_trades : table :=
  [ mkRow "AAPL" (mkDate 2024 Mar 1) 25 10;
    mkRow "AAPL" (mkDate 2024 Jan 5) 100 3;
    mkRow "TSLA" (mkDate 2024 Jan 9) (-50) 1 ].

(** The months of the earliest and of the latest [sell_date] of a table. *)
Definition first_month (df : table) : Z :=
  match df with
  | [] => 0
  | r :: rs => month_index (earliest (sell_date r) (map sell_date rs))
  end.

Definition last_month (df : table) : Z :=
  match df with
  | [] => 0
  | r :: rs => month_index (latest (sell_date r) (map sell_date rs))
  end.

(** The calendar months [lo, lo + 1, ..., hi]. *)
Definition months_between (lo hi : Z) : list Z :=
  map (fun i => lo + Z.of_nat i) (seq 0 (Z.to_nat (hi - lo + 1))).

(** The distinct months in which the table has a trade. *)
Definition trade_months (df : table) : list Z :=
  nodup Z.eq_dec (map (fun r => month_index (sell_date r)) df).

(** Twenty-one instruments, one trade each, with P/L 0, 1, ..., 20. *)
Definition ticker (i : nat) : string := String (ascii_of_nat (65 + i)) EmptyString.

Definition many_instruments : table :=
  map (fun i => mkRow (ticker i) (mkDate 2024 Jan 2) (inject_Z (Z.of_nat i)) 1) (seq 0 21).

(** The input file is absent or cannot be parsed. *)
Definition unavailable (f : input_file) : bool :=
  match f with
  | WellFormed _ => false
  | _ => true
  end.

(** The input file is there but cannot be parsed. *)
Definition unparsable (f : input_file) : bool :=
  match f with
  | EmptyFile | MalformedCsv | NoSellDateColumn | BadDateCell => true
  | NoFile | WellFormed _ => false
  end.

(** The store and the page the script leaves behind on a table [t]. *)
Definition positions_frame (rows : table) : frame := mkFrame (Positions rows) [].

Definition outcome_frame (o : trade_outcome) (rows : table) : frame :=
  mkFrame (Positions rows)
          [("Trade_Outcome"%string, OutcomeCol (repeat o (length rows)))].

Definition final_heap (sv : sorter) (t : table) : list (ref * frame) :=
  [ (10%nat, mkFrame (Positions (profitable_trades t ++ losing_trades t))
                     [("Trade_Outcome"%string,
                       OutcomeCol (repeat Profitable (length (profitable_trades t))
                                   ++ repeat Losing (length (losing_trades t))))]);
    (9%nat, outcome_frame Losing (losing_trades t));
    (8%nat, outcome_frame Profitable (profitable_trades t));
    (7%nat, positions_frame (losing_trades t));
    (6%nat, positions_frame (profitable_trades t));
    (5%nat, mkFrame (Instruments (bottom_10_losing sv t)) []);
    (4%nat, mkFrame (Instruments (top_10_profitable sv t)) []);
    (3%nat, mkFrame (Instruments (instrument_performance t)) []);
    (2%nat, mkFrame (Months (resample_ME_sum (sorted_positions sv t)))
                    [("cumulative_pl"%string,
                      NumCol (cumsum (map month_realized_profit_loss
                                          (resample_ME_sum (sorted_positions sv t)))))]);
    (1%nat, mkFrame (Positions (sorted_positions sv t))
                    [("cumulative_pl"%string,
                      NumCol (cumsum (map realized_profit_loss (sorted_positions sv t))))]);
    (0%nat, positions_frame t) ].

Definition final_page (t : table) : list ui_event :=
  [ UiText "My Robinhood Trading Performance Analysis";
    UiText "Overall Performance Summary";
    UiMetric "Total Realized P/L" (Dollars (total_realized_pl t));
    UiMetric "Total Closed Trades" (Count (total_trades t));
    UiMetric "Win Rate" (Percent (win_rate t));
    UiMetric "Avg Holding Period" (Days (avg_holding_period t));
    UiText "Cumulative Profit/Loss Trend";
    UiChart "Cumulative Realized Profit/Loss Over Time" [1%nat; 2%nat];
    UiText "Instrument Performance Breakdown";
    UiChart "Top 10 Most Profitable Instruments" [4%nat];
    UiChart "Top 10 Least Profitable Instruments" [5%nat];
    UiText "Holding Period Analysis";
    UiChart "Distribution of Holding Periods (Days)" [0%nat];
    UiChart "Holding Period Distribution: Profitable vs. Losing Trades" [10%nat];
    UiChart "Distribution of Realized Profit/Loss per Trade" [0%nat] ].

Definition final_dashboard (t : table) : dashboard :=
  mkDashboard 0%nat 1%nat 2%nat 3%nat 4%nat 5%nat
              (total_realized_pl t) (total_trades t) (win_rate t) (avg_holding_period t)
              6%nat 7%nat 10%nat.


(** The rows of a frame sold on day [d], in the order of the frame. *)
Definition sold_on (d : date) (l : table) : table :=
  filter (fun r => date_eqb (sell_date r) d) l.

(** Rows with equal [sell_date] come in [s] in the same relative order as in [t]. *)
Definition keeps_order_of_equal_dates (t s : table) : Prop :=
  forall d, sold_on d s = sold_on d t.





(** The label [combined_holding] gives to a row, read off the sign of its P/L. *)
Definition is_profitable_label (o : trade_outcome) : bool :=
  match o with Profitable => true | Losing => false end.

(** The events of a page that are metrics, and those that are charts. *)
Definition is_metric (e : ui_event) : bool :=
  match e with UiMetric _ _ => true | _ => false end.

Definition is_chart (e : ui_event) : bool :=
  match e with UiChart _ _ => true | _ => false end.

Definition chart_data (e : ui_event) : list ref :=
  match e with UiChart _ data => data | _ => [] end.


(** * Properties *)

(** ** Sums and running sums *)

Lemma fold_left_Qplus (l : list Q) (a : Q) :
  (fold_left Qplus l a == a + sum_Q l)%Q.
Proof.
  unfold sum_Q. revert a.
  induction l as [|x l IH]; intros a; simpl.
  - lra.
  - rewrite (IH (a + x)%Q), (IH (0 + x)%Q). lra.
Qed.

Lemma sum_Q_cons (x : Q) (l : list Q) : (sum_Q (x :: l) == x + sum_Q l)%Q.
Proof.
  unfold sum_Q at 1. simpl. rewrite fold_left_Qplus. lra.
Qed.



Lemma sum_Q_Permutation (l1 l2 : list Q) :
  Permutation l1 l2 -> (sum_Q l1 == sum_Q l2)%Q.
Proof.
  induction 1 as [| x l l' _ IH | x y l | l l' l'' _ IH1 _ IH2].
  - reflexivity.
  - rewrite !sum_Q_cons, IH. reflexivity.
  - rewrite !sum_Q_cons. lra.
  - rewrite IH1. exact IH2.
Qed.

Lemma cumsum_from_length (l : list Q) (a : Q) : length (cumsum_from a l) = length l.
Proof.
  revert a. induction l as [|x l IH]; intros a; simpl; [reflexivity | now rewrite IH].
Qed.

Lemma cumsum_length (l : list Q) : length (cumsum l) = length l.
Proof.
  destruct l as [|x l]; simpl; [reflexivity | now rewrite cumsum_from_length].
Qed.



Lemma firstn_length_all {A : Type} (l : list A) : firstn (length l) l = l.
Proof. apply firstn_all. Qed.

(** ** Frames with a [cumulative_pl] column *)

Lemma with_cumulative_pl_rows {A : Type} (pl : A -> Q) (l : list A) :
  map fst (with_cumulative_pl pl l) = l.
Proof.
  unfold with_cumulative_pl.
  assert (H : length (cumsum (map pl l)) = length l)
    by now rewrite cumsum_length, length_map.
  revert H. generalize (cumsum (map pl l)) as c.
  induction l as [|x l IH]; intros [|y c] H; simpl in *; try discriminate; trivial.
  f_equal. apply IH. lia.
Qed.





(** ** Summary strip *)

Lemma Qlt_bool_iff (x y : Q) : Qlt_bool x y = true <-> (x < y)%Q.
Proof. unfold Qlt_bool, Qlt. apply Z.ltb_lt. Qed.

Lemma mask_gt0_iff (r : row) : mask_gt0 r = true <-> (0 < realized_profit_loss r)%Q.
Proof. apply Qlt_bool_iff. Qed.

Lemma mask_le0_iff (r : row) : mask_le0 r = true <-> (realized_profit_loss r <= 0)%Q.
Proof. apply Qle_bool_iff. Qed.

Lemma mask_le0_negb (r : row) : mask_le0 r = negb (mask_gt0 r).
Proof.
  destruct (mask_gt0 r) eqn:G, (mask_le0 r) eqn:L; trivial; exfalso.
  - apply mask_gt0_iff in G. apply mask_le0_iff in L. lra.
  - assert (~ (0 < realized_profit_loss r)%Q)
      by (rewrite <- mask_gt0_iff; congruence).
    assert (~ (realized_profit_loss r <= 0)%Q)
      by (rewrite <- mask_le0_iff; congruence).
    lra.
Qed.

Lemma profitable_trades_count_wins (df : table) :
  profitable_trades_count df = count_wins df.
Proof.
  unfold profitable_trades_count, count_wins. f_equal.
  apply filter_ext. intros r.
  destruct (Qlt_le_dec 0 (realized_profit_loss r)) as [H|H].
  - now apply mask_gt0_iff.
  - destruct (mask_gt0 r) eqn:G; trivial. apply mask_gt0_iff in G. lra.
Qed.

Lemma filter_length_le' {A : Type} (f : A -> bool) (l : list A) :
  (length (filter f l) <= length l)%nat.
Proof.
  induction l as [|x l IH]; simpl; [lia|]. destruct (f x); simpl; lia.
Qed.

(** C1: the win rate is [count(P/L > 0) / total * 100] when there is at
    least one trade and 0 when there is none; it always lies in [0, 100]. *)
Theorem win_rate_spec (df : table) :
  ((0 < total_trades df)%nat ->
   win_rate df == inject_Z (Z.of_nat (count_wins df))
                  / inject_Z (Z.of_nat (total_trades df)) * 100)%Q
  /\ (total_trades df = 0%nat -> win_rate df = 0%Q)
  /\ (0 <= win_rate df)%Q /\ (win_rate df <= 100)%Q.
Proof.
  unfold win_rate. rewrite profitable_trades_count_wins.
  pose proof (filter_length_le' mask_gt0 df) as Hle.
  fold (profitable_trades_count df) in Hle.
  rewrite profitable_trades_count_wins in Hle.
  unfold total_trades in *.
  destruct (0 <? length df)%nat eqn:E.
  - apply Nat.ltb_lt in E.
    set (c := Z.of_nat (count_wins df)) in *.
    set (n := Z.of_nat (length df)) in *.
    assert (Hn : (0 < inject_Z n)%Q) by (rewrite <- (Zlt_Qlt 0); lia).
    assert (Hc : (0 <= inject_Z c)%Q) by (rewrite <- (Zle_Qle 0); lia).
    assert (Hcn : (inject_Z c <= inject_Z n)%Q) by (rewrite <- Zle_Qle; lia).
    assert (H0 : (0 <= inject_Z c / inject_Z n)%Q).
    { apply Qle_shift_div_l; [exact Hn | lra]. }
    assert (H1 : (inject_Z c / inject_Z n <= 1)%Q).
    { apply Qle_shift_div_r; [exact Hn | lra]. }
    set (q := (inject_Z c / inject_Z n)%Q) in *.
    split; [intros _; reflexivity|].
    split; [intros Hz; lia|].
    split; lra.
  - apply Nat.ltb_ge in E.
    split; [intros Hpos; lia|].
    split; [reflexivity|].
    split; lra.
Qed.

(** The spec's example: P/L 100, -50, 25 gives a win rate of 200/3 (66.67%). *)
Lemma win_rate_spec_witness :
  (0 < total_trades example_trades)%nat /\ (win_rate example_trades == 200 # 3)%Q.
Proof.
  split; [vm_compute; lia|].
  destruct (win_rate_spec example_trades) as [H _].
  rewrite H; [vm_compute; reflexivity | vm_compute; lia].
Defined.

(** ** Holding-period partition *)

Lemma filter_split_Permutation {A : Type} (f g : A -> bool) (l : list A) :
  (forall x, g x = negb (f x)) ->
  Permutation (filter f l ++ filter g l) l.
Proof.
  intros Hg. induction l as [|x l IH]; simpl; [constructor|].
  rewrite Hg. destruct (f x); simpl.
  - now constructor.
  - apply Permutation_sym, Permutation_cons_app, Permutation_sym, IH.
Qed.

(** C7: a row is profitable iff its P/L is positive and losing iff it is at
    most 0; every row falls in exactly one subset, and the sizes add up. *)
Theorem holding_period_partition (df : table) :
  (forall r, In r (profitable_trades df) <-> In r df /\ (0 < realized_profit_loss r)%Q)
  /\ (forall r, In r (losing_trades df) <-> In r df /\ (realized_profit_loss r <= 0)%Q)
  /\ (forall r, In r df ->
        (In r (profitable_trades df) /\ ~ In r (losing_trades df))
        \/ (~ In r (profitable_trades df) /\ In r (losing_trades df)))
  /\ Permutation (profitable_trades df ++ losing_trades df) df
  /\ (length (profitable_trades df) + length (losing_trades df) = length df)%nat.
Proof.
  unfold profitable_trades, losing_trades.
  assert (HP : forall r, In r (filter mask_gt0 df)
                         <-> In r df /\ (0 < realized_profit_loss r)%Q).
  { intros r. rewrite filter_In, mask_gt0_iff. tauto. }
  assert (HL : forall r, In r (filter mask_le0 df)
                         <-> In r df /\ (realized_profit_loss r <= 0)%Q).
  { intros r. rewrite filter_In, mask_le0_iff. tauto. }
  pose proof (filter_split_Permutation mask_gt0 mask_le0 df mask_le0_negb) as Hperm.
  split; [exact HP|]. split; [exact HL|].
  split; [|split; [exact Hperm|]].
  - intros r Hr. rewrite HP, HL.
    destruct (Qlt_le_dec 0 (realized_profit_loss r)) as [H|H].
    + left. split; [tauto|]. intros [_ H']. lra.
    + right. split; [|tauto]. intros [_ H']. lra.
  - rewrite <- length_app. now apply Permutation_length.
Qed.

Lemma holding_period_partition_witness :
  profitable_trades example_trades
  = [ mkRow "AAPL" (mkDate 2024 Jan 5) 100 3; mkRow "AAPL" (mkDate 2024 Mar 1) 25 10 ]
  /\ losing_trades example_trades = [ mkRow "TSLA" (mkDate 2024 Jan 9) (-50) 1 ]
  /\ (length (profitable_trades example_trades)
      + length (losing_trades example_trades) = length example_trades)%nat.
Proof.
  split; [reflexivity|]. split; [reflexivity|].
  apply (holding_period_partition example_trades).
Defined.

(** ** The order of dates *)

Lemma month_number_range (m : month_name) : 1 <= month_number m <= 12.
Proof. destruct m; simpl; lia. Qed.

Lemma month_number_inj (m1 m2 : month_name) :
  month_number m1 = month_number m2 -> m1 = m2.
Proof. destruct m1, m2; simpl; intros H; try reflexivity; discriminate H. Qed.

Lemma date_ltb_iff (a b : date) :
  date_ltb a b = true
  <-> year a < year b
      \/ (year a = year b
          /\ (month_number (month a) < month_number (month b)
              \/ (month_number (month a) = month_number (month b) /\ day a < day b))).
Proof.
  unfold date_ltb.
  rewrite !orb_true_iff, !andb_true_iff, !orb_true_iff, !andb_true_iff.
  rewrite !Z.ltb_lt, !Z.eqb_eq. tauto.
Qed.

Lemma date_leb_iff (a b : date) :
  date_leb a b = true
  <-> year a < year b
      \/ (year a = year b
          /\ (month_number (month a) < month_number (month b)
              \/ (month_number (month a) = month_number (month b) /\ day a <= day b))).
Proof.
  unfold date_leb. rewrite negb_true_iff, <- not_true_iff_false, date_ltb_iff. lia.
Qed.

Lemma date_eqb_iff (a b : date) :
  date_eqb a b = true
  <-> year a = year b /\ month_number (month a) = month_number (month b) /\ day a = day b.
Proof.
  unfold date_eqb. rewrite !andb_true_iff, !Z.eqb_eq. tauto.
Qed.

Lemma date_leb_refl (a : date) : date_leb a a = true.
Proof. rewrite date_leb_iff. lia. Qed.

Lemma date_leb_total (a b : date) : date_leb a b = true \/ date_leb b a = true.
Proof. rewrite !date_leb_iff. lia. Qed.

Lemma date_leb_trans (a b c : date) :
  date_leb a b = true -> date_leb b c = true -> date_leb a c = true.
Proof. rewrite !date_leb_iff. lia. Qed.

Lemma date_ltb_leb (a b : date) : date_ltb a b = true -> date_leb a b = true.
Proof. rewrite date_ltb_iff, date_leb_iff. lia. Qed.

Lemma date_ltb_false_leb (a b : date) : date_ltb a b = false -> date_leb b a = true.
Proof. intros H. unfold date_leb. now rewrite H. Qed.

Lemma date_leb_antisym (a b : date) :
  date_leb a b = true -> date_leb b a = true -> a = b.
Proof.
  rewrite !date_leb_iff. intros H1 H2.
  destruct a as [ya ma da], b as [yb mb db]. cbn [year month day] in *.
  assert (ya = yb /\ month_number ma = month_number mb /\ da = db) as (-> & Hm & ->) by lia.
  now rewrite (month_number_inj _ _ Hm).
Qed.

(** A later date never falls in an earlier month. *)
Lemma month_index_mono (a b : date) :
  date_leb a b = true -> month_index a <= month_index b.
Proof.
  rewrite date_leb_iff. unfold month_index.
  pose proof (month_number_range (month a)).
  pose proof (month_number_range (month b)).
  lia.
Qed.

Lemma month_of_number_number (n : Z) :
  1 <= n <= 12 -> month_number (month_of_number n) = n.
Proof.
  intros H.
  assert (n = 1 \/ n = 2 \/ n = 3 \/ n = 4 \/ n = 5 \/ n = 6 \/ n = 7
          \/ n = 8 \/ n = 9 \/ n = 10 \/ n = 11 \/ n = 12) as C by lia.
  repeat (destruct C as [-> | C]; [reflexivity|]). now subst n.
Qed.

(** The label of a bucket lies in the month of the bucket. *)
Lemma month_index_month_end (k : Z) : month_index (month_end k) = k.
Proof.
  unfold month_index, month_end. cbn [year month day].
  pose proof (Z.mod_pos_bound k 12 ltac:(lia)).
  rewrite month_of_number_number by lia.
  pose proof (Z.div_mod k 12 ltac:(lia)). lia.
Qed.

Lemma by_sell_date_total (a b : row) :
  by_sell_date a b = true \/ by_sell_date b a = true.
Proof. apply date_leb_total. Qed.

Lemma by_sell_date_trans (a b c : row) :
  by_sell_date a b = true -> by_sell_date b c = true -> by_sell_date a c = true.
Proof. apply date_leb_trans. Qed.

(** ** Sorting *)

Section StableSort.

Context {A : Type} (le : A -> A -> bool).
Hypothesis le_total : forall x y, le x y = true \/ le y x = true.
Hypothesis le_trans : forall x y z, le x y = true -> le y z = true -> le x z = true.

Lemma insert_sorted_Permutation (x : A) (s : list A) :
  Permutation (x :: s) (insert_sorted le x s).
Proof.
  induction s as [|y s IH]; simpl; [apply Permutation_refl|].
  destruct (le x y); [apply Permutation_refl|].
  eapply perm_trans; [apply perm_swap|]. now constructor.
Qed.

Lemma insert_sorted_StronglySorted (x : A) (s : list A) :
  StronglySorted (fun a b => le a b = true) s ->
  StronglySorted (fun a b => le a b = true) (insert_sorted le x s).
Proof.
  induction 1 as [|y s Hs IH Hy]; simpl.
  - repeat constructor.
  - destruct (le x y) eqn:E.
    + constructor; [now constructor|].
      constructor; [exact E|].
      rewrite Forall_forall in *. intros z Hz. eauto.
    + constructor; [exact IH|].
      rewrite Forall_forall in *. intros z Hz.
      apply (Permutation_in _ (Permutation_sym (insert_sorted_Permutation x s))) in Hz.
      destruct Hz as [<- | Hz]; [|now apply Hy].
      destruct (le_total x y) as [H|H]; [congruence | exact H].
Qed.

Lemma stable_sort_Permutation (l : list A) : Permutation l (stable_sort A le l).
Proof.
  unfold stable_sort. induction l as [|x l IH]; simpl; [constructor|].
  eapply perm_trans; [|apply insert_sorted_Permutation]. now constructor.
Qed.

(** The stable routine meets the promise of [sort_values] on every frame. *)
Lemma stable_sort_sorts (l : list A) : sorts le l (stable_sort A le l).
Proof.
  unfold sorts, stable_sort.
  induction l as [|x l [IHp IHs]]; simpl.
  - split; constructor.
  - split.
    + eapply perm_trans; [|apply insert_sorted_Permutation]. now constructor.
    + now apply insert_sorted_StronglySorted.
Qed.

End StableSort.

Lemma sorts_nil {A : Type} (le : A -> A -> bool) (s : list A) :
  sorts le [] s -> s = [].
Proof. intros [H _]. now apply Permutation_nil. Qed.

Lemma sorts_nonempty {A : Type} (le : A -> A -> bool) (l s : list A) :
  sorts le l s -> l <> [] -> s <> [].
Proof.
  intros [H _] Hl ->. apply Hl. now apply Permutation_nil, Permutation_sym.
Qed.

(** ** C2: the chronological series *)




(** ** Monthly buckets *)







Lemma month_sum_Permutation (l s : table) (k : Z) :
  Permutation l s -> (month_sum s k == month_sum l k)%Q.
Proof.
  intros H. unfold month_sum.
  apply sum_Q_Permutation, Permutation_map, Permutation_sym.
  (* filtering keeps a reordering a reordering *)
  induction H; simpl; try constructor.
  - destruct (in_month k x); [now constructor | assumption].
  - destruct (in_month k x), (in_month k y); try apply Permutation_refl. apply perm_swap.
  - eapply perm_trans; eassumption.
Qed.

(** The earliest and the latest date of a column. *)
Lemma earliest_spec (l : list date) (d : date) :
  In (earliest d l) (d :: l)
  /\ forall x, In x (d :: l) -> date_leb (earliest d l) x = true.
Proof.
  unfold earliest. revert d.
  induction l as [|y l IH]; intros d; simpl.
  - split; [now left|]. intros x [<- | []]. apply date_leb_refl.
  - destruct (IH (if date_ltb y d then y else d)) as [Hin Hle].
    split.
    + destruct Hin as [E | Hin]; [|now right; right].
      rewrite <- E. destruct (date_ltb y d); [right; now left | now left].
    + intros x Hx.
      assert (Hm : date_leb (if date_ltb y d then y else d) d = true
                   /\ date_leb (if date_ltb y d then y else d) y = true).
      { destruct (date_ltb y d) eqn:E.
        - split; [now apply date_ltb_leb | apply date_leb_refl].
        - split; [apply date_leb_refl | now apply date_ltb_false_leb]. }
      destruct Hm as [Hd Hy].
      destruct Hx as [<- | [<- | Hx]].
      * eapply date_leb_trans; [|exact Hd]. apply Hle. now left.
      * eapply date_leb_trans; [|exact Hy]. apply Hle. now left.
      * apply Hle. now right.
Qed.

Lemma latest_spec (l : list date) (d : date) :
  In (latest d l) (d :: l)
  /\ forall x, In x (d :: l) -> date_leb x (latest d l) = true.
Proof.
  unfold latest. revert d.
  induction l as [|y l IH]; intros d; simpl.
  - split; [now left|]. intros x [<- | []]. apply date_leb_refl.
  - destruct (IH (if date_ltb d y then y else d)) as [Hin Hle].
    split.
    + destruct Hin as [E | Hin]; [|now right; right].
      rewrite <- E. destruct (date_ltb d y); [right; now left | now left].
    + intros x Hx.
      assert (Hm : date_leb d (if date_ltb d y then y else d) = true
                   /\ date_leb y (if date_ltb d y then y else d) = true).
      { destruct (date_ltb d y) eqn:E.
        - split; [now apply date_ltb_leb | apply date_leb_refl].
        - split; [apply date_leb_refl | now apply date_ltb_false_leb]. }
      destruct Hm as [Hd Hy].
      destruct Hx as [<- | [<- | Hx]].
      * eapply date_leb_trans; [exact Hd|]. apply Hle. now left.
      * eapply date_leb_trans; [exact Hy|]. apply Hle. now left.
      * apply Hle. now right.
Qed.

Lemma earliest_Permutation (d d' : date) (l l' : list date) :
  Permutation (d :: l) (d' :: l') -> earliest d l = earliest d' l'.
Proof.
  intros H.
  destruct (earliest_spec l d) as [Hin Hle], (earliest_spec l' d') as [Hin' Hle'].
  apply date_leb_antisym.
  - apply Hle. eapply Permutation_in; [apply Permutation_sym, H | exact Hin'].
  - apply Hle'. eapply Permutation_in; [exact H | exact Hin].
Qed.

Lemma latest_Permutation (d d' : date) (l l' : list date) :
  Permutation (d :: l) (d' :: l') -> latest d l = latest d' l'.
Proof.
  intros H.
  destruct (latest_spec l d) as [Hin Hle], (latest_spec l' d') as [Hin' Hle'].
  apply date_leb_antisym.
  - apply Hle'. eapply Permutation_in; [exact H | exact Hin].
  - apply Hle. eapply Permutation_in; [apply Permutation_sym, H | exact Hin'].
Qed.

Lemma first_month_Permutation (l s : table) :
  Permutation l s -> first_month s = first_month l.
Proof.
  intros H. destruct l as [|r rs], s as [|r' rs']; trivial.
  - now apply Permutation_nil in H.
  - now apply Permutation_sym, Permutation_nil in H.
  - simpl. f_equal. apply earliest_Permutation.
    change (Permutation (map sell_date (r' :: rs')) (map sell_date (r :: rs))).
    now apply Permutation_map, Permutation_sym.
Qed.

Lemma last_month_Permutation (l s : table) :
  Permutation l s -> last_month s = last_month l.
Proof.
  intros H. destruct l as [|r rs], s as [|r' rs']; trivial.
  - now apply Permutation_nil in H.
  - now apply Permutation_sym, Permutation_nil in H.
  - simpl. f_equal. apply latest_Permutation.
    change (Permutation (map sell_date (r' :: rs')) (map sell_date (r :: rs))).
    now apply Permutation_map, Permutation_sym.
Qed.

(** The first month is the month of a row that no row precedes. *)
Lemma first_month_earliest (df : table) :
  df <> [] ->
  exists r, In r df /\ month_index (sell_date r) = first_month df
            /\ forall r', In r' df -> date_leb (sell_date r) (sell_date r') = true.
Proof.
  destruct df as [|r0 rs]; [congruence|]. intros _.
  destruct (earliest_spec (map sell_date rs) (sell_date r0)) as [Hin Hle].
  change (In (earliest (sell_date r0) (map sell_date rs)) (map sell_date (r0 :: rs))) in Hin.
  apply in_map_iff in Hin. destruct Hin as [r [Er Hr]].
  exists r. split; [exact Hr|]. split.
  - simpl. now rewrite Er.
  - intros r' Hr'. rewrite Er. apply Hle.
    change (In (sell_date r') (map sell_date (r0 :: rs))). now apply in_map.
Qed.

Lemma last_month_latest (df : table) :
  df <> [] ->
  exists r, In r df /\ month_index (sell_date r) = last_month df
            /\ forall r', In r' df -> date_leb (sell_date r') (sell_date r) = true.
Proof.
  destruct df as [|r0 rs]; [congruence|]. intros _.
  destruct (latest_spec (map sell_date rs) (sell_date r0)) as [Hin Hle].
  change (In (latest (sell_date r0) (map sell_date rs)) (map sell_date (r0 :: rs))) in Hin.
  apply in_map_iff in Hin. destruct Hin as [r [Er Hr]].
  exists r. split; [exact Hr|]. split.
  - simpl. now rewrite Er.
  - intros r' Hr'. rewrite Er. apply Hle.
    change (In (sell_date r') (map sell_date (r0 :: rs))). now apply in_map.
Qed.

(** Every row lies between the first and the last month. *)
Lemma month_index_in_span (df : table) (r : row) :
  In r df -> first_month df <= month_index (sell_date r) <= last_month df.
Proof.
  intros Hr.
  assert (Hne : df <> []) by (intros ->; destruct Hr).
  destruct (first_month_earliest df Hne) as (a & _ & <- & Ha).
  destruct (last_month_latest df Hne) as (b & _ & <- & Hb).
  split; apply month_index_mono; auto.
Qed.


Lemma resample_ME_sum_months (s : table) :
  s <> [] ->
  resample_ME_sum s = map (month_bucket s) (months_between (first_month s) (last_month s)).
Proof.
  destruct s as [|r rs]; [congruence|]. intros _.
  unfold resample_ME_sum, months_between, first_month, last_month.
  now rewrite map_map.
Qed.


Lemma months_between_In (lo hi k : Z) :
  In k (months_between lo hi) <-> lo <= k <= hi.
Proof.
  unfold months_between. rewrite in_map_iff. split.
  - intros (i & <- & Hi). apply in_seq in Hi. lia.
  - intros H. exists (Z.to_nat (k - lo)). split; [lia|]. apply in_seq. lia.
Qed.

(** The monthly frame of a non-empty table, bucket by bucket. *)
Lemma monthly_pl_rows (sv : sorter) (df : table) :
  df <> [] ->
  sorts by_sell_date df (sorted_positions sv df) ->
  map fst (monthly_pl sv df)
  = map (month_bucket (sorted_positions sv df))
        (months_between (first_month df) (last_month df)).
Proof.
  intros Hne Hs. unfold monthly_pl.
  rewrite with_cumulative_pl_rows.
  rewrite resample_ME_sum_months by (eapply sorts_nonempty; eassumption).
  destruct Hs as [Hp _].
  now rewrite (first_month_Permutation _ _ Hp), (last_month_Permutation _ _ Hp).
Qed.


(** ** C3: monthly and chronological series end at the same value *)



(** ** C10: the monthly series has a bucket for every month of the span *)

Lemma month_sum_no_trades (l : table) (k : Z) :
  (forall r, In r l -> month_index (sell_date r) <> k) -> (month_sum l k == 0)%Q.
Proof.
  intros H. unfold month_sum.
  replace (filter (in_month k) l) with (@nil row); [reflexivity|].
  symmetry. induction l as [|r l IH]; simpl; [reflexivity|].
  unfold in_month at 1.
  destruct (Z.eqb_spec (month_index (sell_date r)) k) as [E|E].
  - exfalso. apply (H r); [now left | exact E].
  - apply IH. intros r' Hr'. apply H. now right.
Qed.

Lemma trade_months_le_span (df : table) :
  (length (trade_months df)
   <= length (months_between (first_month df) (last_month df)))%nat.
Proof.
  apply NoDup_incl_length; [apply NoDup_nodup|].
  intros k Hk. unfold trade_months in Hk. apply nodup_In, in_map_iff in Hk.
  destruct Hk as (r & <- & Hr).
  apply months_between_In, month_index_in_span, Hr.
Qed.

(** C10: for a non-empty table the monthly series has exactly one bucket for
    each calendar month from the month of the earliest [sell_date] through the
    month of the latest; a bucket holds the sum of the P/L of the trades of
    its month, which is 0 for a month without trades; so there are at least as
    many buckets as months with trades, and there can be more. *)
Theorem monthly_buckets_cover_span (sv : sorter) (df : table) :
  df <> [] ->
  sorts by_sell_date df (sorted_positions sv df) ->
  let buckets := map fst (monthly_pl sv df) in
  (exists a b,
      In a df /\ In b df
      /\ month_index (sell_date a) = first_month df
      /\ month_index (sell_date b) = last_month df
      /\ forall r, In r df ->
                   date_leb (sell_date a) (sell_date r) = true
                   /\ date_leb (sell_date r) (sell_date b) = true)
  /\ map month_label buckets
     = map month_end (months_between (first_month df) (last_month df))
  /\ map (fun b => month_index (month_label b)) buckets
     = months_between (first_month df) (last_month df)
  /\ (forall b, In b buckets ->
        (month_realized_profit_loss b == month_sum df (month_index (month_label b)))%Q)
  /\ (forall b, In b buckets ->
        (forall r, In r df -> month_index (sell_date r) <> month_index (month_label b)) ->
        (month_realized_profit_loss b == 0)%Q)
  /\ (length (trade_months df) <= length buckets)%nat
  /\ (forall sv', sorts by_sell_date example_trades (sorted_positions sv' example_trades) ->
        length (trade_months example_trades) = 2%nat
        /\ length (monthly_pl sv' example_trades) = 3%nat).
Proof.
  intros Hne Hs buckets. subst buckets.
  rewrite (monthly_pl_rows sv df Hne Hs).
  assert (Hb : forall b,
             In b (map (month_bucket (sorted_positions sv df))
                       (months_between (first_month df) (last_month df))) ->
             (month_realized_profit_loss b
              == month_sum df (month_index (month_label b)))%Q).
  { intros b Hb. apply in_map_iff in Hb. destruct Hb as (k & <- & _).
    cbn [month_bucket month_realized_profit_loss month_label].
    rewrite month_index_month_end. apply month_sum_Permutation, Hs. }
  split; [|split; [|split; [|split; [|split; [|split]]]]].
  - destruct (first_month_earliest df Hne) as (a & Ha & Ea & Hmin).
    destruct (last_month_latest df Hne) as (b & Hb' & Eb & Hmax).
    exists a, b. repeat split; auto.
  - rewrite map_map. reflexivity.
  - rewrite map_map. cbn [month_bucket month_label].
    rewrite <- (map_id (months_between _ _)) at 2.
    apply map_ext. intros k. apply month_index_month_end.
  - exact Hb.
  - intros b Hin Hnone. rewrite (Hb b Hin). now apply month_sum_no_trades.
  - rewrite length_map. apply trade_months_le_span.
  - intros sv' Hs'. split; [reflexivity|].
    rewrite <- (length_map fst).
    rewrite (monthly_pl_rows sv' example_trades) by (discriminate || exact Hs').
    rewrite length_map. reflexivity.
Qed.

Lemma monthly_buckets_cover_span_witness :
  map month_label (map fst (monthly_pl stable_sort shuffled_trades))
  = [ mkDate 2024 Jan 31; mkDate 2024 Feb 29; mkDate 2024 Mar 31 ].
Proof.
  destruct (monthly_buckets_cover_span stable_sort shuffled_trades)
    as (_ & H & _).
  - discriminate.
  - apply stable_sort_sorts; [apply by_sell_date_total | apply by_sell_date_trans].
  - rewrite H. reflexivity.
Defined.

(** ** C6: instrument rankings *)

Lemma group_keys_In (df : table) (k : string) :
  In k (group_keys df) <-> In k (map instrument df).
Proof.
  unfold group_keys. split; intros H.
  - apply (nodup_In string_dec).
    eapply Permutation_in; [apply Permutation_sym, stable_sort_Permutation | exact H].
  - eapply Permutation_in; [apply stable_sort_Permutation|].
    now apply nodup_In.
Qed.








Lemma StronglySorted_app_cross {A : Type} (R : A -> A -> Prop) (l1 l2 : list A) :
  StronglySorted R (l1 ++ l2) ->
  forall x y, In x l1 -> In y l2 -> R x y.
Proof.
  induction l1 as [|a l1 IH]; intros Hs x y Hx Hy; [destruct Hx|].
  simpl in Hs. inversion Hs as [|? ? Hs' Hall]; subst.
  destruct Hx as [<- | Hx].
  - rewrite Forall_forall in Hall. apply Hall, in_or_app. now right.
  - now apply IH.
Qed.





Lemma by_total_pl_descending_total (a b : instrument_row) :
  by_total_pl_descending a b = true \/ by_total_pl_descending b a = true.
Proof.
  unfold by_total_pl_descending. rewrite !Qle_bool_iff.
  destruct (Qlt_le_dec (total_pl a) (total_pl b)); [right | left]; lra.
Qed.

Lemma by_total_pl_descending_trans (a b c : instrument_row) :
  by_total_pl_descending a b = true -> by_total_pl_descending b c = true ->
  by_total_pl_descending a c = true.
Proof. unfold by_total_pl_descending. rewrite !Qle_bool_iff. lra. Qed.

Lemma by_total_pl_ascending_total (a b : instrument_row) :
  by_total_pl_ascending a b = true \/ by_total_pl_ascending b a = true.
Proof.
  unfold by_total_pl_ascending. rewrite !Qle_bool_iff.
  destruct (Qlt_le_dec (total_pl a) (total_pl b)); [left | right]; lra.
Qed.

Lemma by_total_pl_ascending_trans (a b c : instrument_row) :
  by_total_pl_ascending a b = true -> by_total_pl_ascending b c = true ->
  by_total_pl_ascending a c = true.
Proof. unfold by_total_pl_ascending. rewrite !Qle_bool_iff. lra. Qed.


(** ** The run of the script *)

(** On a well-formed file the script runs to its end; its variables are
    bound to the frames computed by the definitions above. *)
Lemma run_WellFormed (sv : sorter) (t : table) :
  run sv (WellFormed t)
  = (Ok (final_dashboard t),
     mkWorld (WellFormed t) (final_heap sv t) 11%nat (final_page t)).
Proof. reflexivity. Qed.

Lemma find_frame_store_other (r r' : ref) (f : frame) (h : list (ref * frame)) :
  r <> r' -> find_frame r' (store_frame r f h) = find_frame r' h.
Proof.
  intros Hne. induction h as [|[r0 f0] h IH]; simpl; [reflexivity|].
  destruct (Nat.eqb_spec r r0) as [->|E]; simpl.
  - destruct (Nat.eqb_spec r' r0) as [->|_]; [congruence | reflexivity].
  - now rewrite IH.
Qed.

(** What [load_data] leaves in a fresh store. *)
Lemma load_data_WellFormed (t : table) :
  load_data (start (WellFormed t))
  = (Ok 0%nat, mkWorld (WellFormed t) [(0%nat, positions_frame t)] 1%nat []).
Proof. reflexivity. Qed.

(** ** C9: the loaded table is not changed by the derived views *)

(** C9: after all four derived views are computed, the frame behind
    [closed_positions_df] is the frame that [load_data] returned: the rows of
    the file and no assigned column; the views live in frames of their own. *)
Theorem base_table_unchanged (sv : sorter) (t : table) :
  exists (d : dashboard) (loaded final : world),
    load_data (start (WellFormed t)) = (Ok (closed_positions_df_ref d), loaded)
    /\ run sv (WellFormed t) = (Ok d, final)
    /\ frame_at (closed_positions_df_ref d) loaded = Some (mkFrame (Positions t) [])
    /\ frame_at (closed_positions_df_ref d) final
       = frame_at (closed_positions_df_ref d) loaded
    /\ file final = file loaded
    /\ (forall r, In r [closed_positions_df_sorted_ref d; monthly_pl_ref d;
                        instrument_performance_ref d; top_10_profitable_ref d;
                        bottom_10_losing_ref d; profitable_trades_ref d;
                        losing_trades_ref d; combined_holding_ref d] ->
                   r <> closed_positions_df_ref d /\ frame_at r loaded = None
                   /\ frame_at r final <> None).
Proof.
  exists (final_dashboard t).
  eexists. eexists.
  split; [apply load_data_WellFormed|].
  split; [apply run_WellFormed|].
  split; [reflexivity|]. split; [reflexivity|]. split; [reflexivity|].
  intros r Hr. simpl in Hr.
  repeat (destruct Hr as [<- | Hr];
          [split; [discriminate | split; [reflexivity | discriminate]]|]).
  destruct Hr.
Qed.

Lemma run_NoFile (sv : sorter) :
  run sv NoFile = (Stopped, mkWorld NoFile [] 0%nat [UiError data_files_not_found]).
Proof. reflexivity. Qed.

(** An exception other than [FileNotFoundError] raised while reading ends
    the run at once: no message, no frame. *)
Lemma run_unparsable (sv : sorter) (f : input_file) (e : exn) :
  read_csv_to_datetime (start f) = (Raised e, start f) ->
  e <> FileNotFoundError ->
  run sv f = (Raised e, mkWorld f [] 0%nat []).
Proof.
  intros H Hne. unfold run, script, bind, load_data, try_except_FileNotFoundError.
  rewrite H. destruct e; try reflexivity. congruence.
Qed.

(** ** C4: a missing or unparsable input file *)

(** C4 does not hold as stated: on a file that is present but malformed the
    loader shows no message and does not stop the run; the parser's
    exception leaves [load_data] uncaught. *)
Lemma malformed_file_is_not_handled :
  unavailable MalformedCsv = true
  /\ fst (run numpy_quicksort MalformedCsv) = Raised ParserError
  /\ fst (run numpy_quicksort MalformedCsv) <> Stopped
  /\ page (snd (run numpy_quicksort MalformedCsv)) = [].
Proof. repeat split. discriminate. Qed.

(** C4, amended: when the file is absent the loader shows the message and
    stops the run before any frame exists; this is the only error the script
    handles: a file that is present but unparsable raises an exception that
    nothing catches, with no message and no frame; a well-formed file is loaded. *)
Theorem load_data_error_policy (sv : sorter) (f : input_file) :
  (f = NoFile ->
   run sv f = (Stopped, mkWorld f [] 0%nat [UiError data_files_not_found]))
  /\ (unparsable f = true ->
      exists e, e <> FileNotFoundError
                /\ run sv f = (Raised e, mkWorld f [] 0%nat []))
  /\ (fst (run sv f) = Stopped <-> f = NoFile)
  /\ (forall e, fst (run sv f) = Raised e -> unparsable f = true)
  /\ (forall t, f = WellFormed t -> fst (run sv f) = Ok (final_dashboard t)).
Proof.
  destruct f as [| | | | | t].
  - rewrite run_NoFile. cbn [fst unparsable].
    split; [reflexivity|]. split; [discriminate|].
    split; [tauto|]. split; [discriminate|]. discriminate.
  - rewrite (run_unparsable sv EmptyFile EmptyDataError) by (reflexivity || discriminate).
    cbn [fst unparsable].
    split; [discriminate|].
    split; [intros _; exists EmptyDataError; split; [discriminate | reflexivity]|].
    split; [split; discriminate|]. split; [reflexivity|]. discriminate.
  - rewrite (run_unparsable sv MalformedCsv ParserError) by (reflexivity || discriminate).
    cbn [fst unparsable].
    split; [discriminate|].
    split; [intros _; exists ParserError; split; [discriminate | reflexivity]|].
    split; [split; discriminate|]. split; [reflexivity|]. discriminate.
  - rewrite (run_unparsable sv NoSellDateColumn KeyError) by (reflexivity || discriminate).
    cbn [fst unparsable].
    split; [discriminate|].
    split; [intros _; exists KeyError; split; [discriminate | reflexivity]|].
    split; [split; discriminate|]. split; [reflexivity|]. discriminate.
  - rewrite (run_unparsable sv BadDateCell DateParseError) by (reflexivity || discriminate).
    cbn [fst unparsable].
    split; [discriminate|].
    split; [intros _; exists DateParseError; split; [discriminate | reflexivity]|].
    split; [split; discriminate|]. split; [reflexivity|]. discriminate.
  - rewrite run_WellFormed. cbn [fst unparsable].
    split; [discriminate|]. split; [discriminate|].
    split; [split; discriminate|]. split; [discriminate|].
    intros t' [= <-]. reflexivity.
Qed.

Lemma load_data_error_policy_witness :
  run numpy_quicksort NoFile
  = (Stopped, mkWorld NoFile [] 0%nat [UiError data_files_not_found]).
Proof.
  apply (load_data_error_policy numpy_quicksort NoFile). reflexivity.
Defined.

(** ** C5: the empty table *)

(** C5: on a file with no rows the script runs to its end; total P/L, trade
    count and win rate are 0 and every derived frame is empty. *)
Theorem empty_table (sv : sorter) :
  sorts by_sell_date [] (sv row by_sell_date []) ->
  sorts by_total_pl_descending [] (sv instrument_row by_total_pl_descending []) ->
  sorts by_total_pl_ascending [] (sv instrument_row by_total_pl_ascending []) ->
  fst (run sv (WellFormed [])) = Ok (final_dashboard [])
  /\ total_realized_pl [] = 0%Q
  /\ total_trades [] = 0%nat
  /\ win_rate [] = 0%Q
  /\ closed_positions_df_sorted sv [] = []
  /\ monthly_pl sv [] = []
  /\ instrument_performance [] = []
  /\ top_10_profitable sv [] = []
  /\ bottom_10_losing sv [] = []
  /\ profitable_trades [] = []
  /\ losing_trades [] = []
  /\ combined_holding [] = []
  /\ map (fun c => body (snd c)) (heap (snd (run sv (WellFormed []))))
     = [ Positions []; Positions []; Positions []; Positions []; Positions [];
         Instruments []; Instruments []; Instruments []; Months [];
         Positions []; Positions [] ].
Proof.
  intros H1 H2 H3.
  apply sorts_nil in H1. apply sorts_nil in H2. apply sorts_nil in H3.
  assert (Hs : sorted_positions sv [] = []) by exact H1.
  assert (Ht : top_10_profitable sv [] = []).
  { unfold top_10_profitable. change (instrument_performance []) with (@nil instrument_row).
    now rewrite H2. }
  assert (Hb : bottom_10_losing sv [] = []).
  { unfold bottom_10_losing. change (instrument_performance []) with (@nil instrument_row).
    now rewrite H3. }
  rewrite run_WellFormed. unfold final_heap.
  cbn [fst snd heap map body].
  unfold closed_positions_df_sorted, monthly_pl.
  rewrite Hs, Ht, Hb.
  repeat split; reflexivity.
Qed.

Lemma empty_table_witness :
  fst (run stable_sort (WellFormed [])) = Ok (final_dashboard [])
  /\ win_rate [] = 0%Q
  /\ monthly_pl stable_sort [] = [].
Proof.
  assert (Hnil : forall (A : Type) (le : A -> A -> bool), sorts le [] (stable_sort A le []))
    by (intros; split; constructor).
  destruct (empty_table stable_sort (Hnil _ _) (Hnil _ _) (Hnil _ _))
    as (H1 & _ & _ & H2 & _ & H3 & _).
  split; [exact H1|]. split; [exact H2 | exact H3].
Defined.

(** ** C8: rows with the same [sell_date] *)







(** With [kind='stable'] the rows of a day would keep the order of the file. *)
Lemma date_eqb_leb (a b d : date) :
  date_eqb a d = true -> date_eqb b d = true -> date_leb a b = true.
Proof.
  rewrite !date_eqb_iff, date_leb_iff. lia.
Qed.

Lemma sold_on_insert_sorted (d : date) (x : row) (s : table) :
  sold_on d (insert_sorted by_sell_date x s) = sold_on d (x :: s).
Proof.
  induction s as [|y s IH]; [reflexivity|].
  simpl insert_sorted. destruct (by_sell_date x y) eqn:E; [reflexivity|].
  unfold sold_on in *. simpl in *. rewrite IH.
  destruct (date_eqb (sell_date x) d) eqn:Ex, (date_eqb (sell_date y) d) eqn:Ey;
    try reflexivity.
  unfold by_sell_date in E. rewrite (date_eqb_leb _ _ _ Ex Ey) in E. discriminate.
Qed.

Lemma stable_sort_keeps_order (t : table) :
  keeps_order_of_equal_dates t (stable_sort row by_sell_date t).
Proof.
  intros d. induction t as [|x t IH]; [reflexivity|].
  change (stable_sort row by_sell_date (x :: t))
    with (insert_sorted by_sell_date x (stable_sort row by_sell_date t)).
  rewrite sold_on_insert_sorted. unfold sold_on in *. simpl. now rewrite IH.
Qed.




Lemma holding_period_partition_sizes (df : table) :
  (length (filter mask_gt0 df) + length (filter mask_le0 df) = length df)%nat.
Proof.
  rewrite <- length_app.
  apply Permutation_length, filter_split_Permutation, mask_le0_negb.
Qed.

(** * Further properties of the script *)

(** ** The combined frame of lines 118-121 *)

Lemma combine_repeat {A B : Type} (l : list A) (b : B) :
  combine l (repeat b (length l)) = map (fun a => (a, b)) l.
Proof.
  induction l as [|a l IH]; simpl; [reflexivity | now rewrite IH].
Qed.

Lemma combine_app_same {A B : Type} (l1 l2 : list A) (c1 c2 : list B) :
  length l1 = length c1 ->
  combine (l1 ++ l2) (c1 ++ c2) = combine l1 c1 ++ combine l2 c2.
Proof.
  revert c1. induction l1 as [|a l1 IH]; intros [|b c1] H; simpl in *;
    try discriminate; [reflexivity|].
  f_equal. apply IH. lia.
Qed.

(** X1: [combined_holding] labels every row of the table exactly once:
    it has as many rows as the table, its rows are the rows of the table, a
    row is labelled [Profitable] exactly when its P/L is positive and
    [Losing] exactly when it is at most 0, and the frame the script stores
    pairs these rows with this [Trade_Outcome] column. *)
Theorem combined_holding_labels (sv : sorter) (df : table) :
  length (combined_holding df) = length df
  /\ Permutation (map fst (combined_holding df)) df
  /\ (forall r o, In (r, o) (combined_holding df) ->
        In r df
        /\ (o = Profitable <-> (0 < realized_profit_loss r)%Q)
        /\ (o = Losing <-> (realized_profit_loss r <= 0)%Q))
  /\ (forall r, In r df -> exists o, In (r, o) (combined_holding df))
  /\ (exists rows labels,
        frame_at 10%nat (snd (run sv (WellFormed df)))
        = Some (mkFrame (Positions rows) [("Trade_Outcome"%string, OutcomeCol labels)])
        /\ combine rows labels = combined_holding df).
Proof.
  unfold combined_holding, assign_outcome.
  split.
  { rewrite length_app, !length_map.
    apply (holding_period_partition_sizes df). }
  split.
  { rewrite map_app, !map_map. cbn [fst]. rewrite !map_id.
    apply filter_split_Permutation, mask_le0_negb. }
  split.
  { intros r o H. apply in_app_or in H.
    destruct H as [H | H]; apply in_map_iff in H; destruct H as (r' & [= -> <-] & Hr');
      apply filter_In in Hr'; destruct Hr' as [Hin Hm].
    - apply mask_gt0_iff in Hm. split; [exact Hin|].
      split; split; intros H; try reflexivity; try exact Hm; try discriminate; lra.
    - apply mask_le0_iff in Hm. split; [exact Hin|].
      split; split; intros H; try reflexivity; try exact Hm; try discriminate; lra. }
  split.
  { intros r Hr. destruct (mask_gt0 r) eqn:E.
    - exists Profitable. apply in_or_app. left.
      apply in_map_iff. exists r. split; [reflexivity|]. now apply filter_In.
    - exists Losing. apply in_or_app. right.
      apply in_map_iff. exists r. split; [reflexivity|].
      apply filter_In. split; [exact Hr|]. rewrite mask_le0_negb, E. reflexivity. }
  rewrite run_WellFormed. cbn [snd]. unfold frame_at, final_heap. cbn [heap find_frame Nat.eqb].
  eexists. eexists. split; [reflexivity|].
  rewrite combine_app_same by (now rewrite repeat_length).
  now rewrite !combine_repeat.
Qed.

(** ** Totals per instrument against the overall total *)




(** ** The extremes of the win rate *)

Lemma filter_length_all {A : Type} (f : A -> bool) (l : list A) :
  length (filter f l) = length l <-> forall x, In x l -> f x = true.
Proof.
  induction l as [|x l IH]; simpl.
  - split; [intros _ y [] | reflexivity].
  - pose proof (filter_length_le' f l) as Hle.
    destruct (f x) eqn:E; simpl; split.
    + intros H y [<- | Hy]; [exact E|]. apply IH; [lia | exact Hy].
    + intros H. f_equal. apply IH. intros y Hy. apply H. now right.
    + intros H. lia.
    + intros H. rewrite (H x) in E; [discriminate | now left].
Qed.

Lemma filter_length_none {A : Type} (f : A -> bool) (l : list A) :
  length (filter f l) = 0%nat <-> forall x, In x l -> f x = false.
Proof.
  induction l as [|x l IH]; simpl.
  - split; [intros _ y [] | reflexivity].
  - destruct (f x) eqn:E; simpl; split.
    + discriminate.
    + intros H. rewrite (H x) in E; [discriminate | now left].
    + intros H y [<- | Hy]; [exact E | now apply IH].
    + intros H. apply IH. intros y Hy. apply H. now right.
Qed.

Lemma win_rate_positive_total (df : table) :
  df <> [] ->
  (win_rate df == inject_Z (Z.of_nat (profitable_trades_count df))
                  / inject_Z (Z.of_nat (length df)) * 100)%Q
  /\ (0 < inject_Z (Z.of_nat (length df)))%Q.
Proof.
  intros Hne. unfold win_rate, total_trades.
  assert (Hpos : (0 < length df)%nat) by (destruct df; [congruence | simpl; lia]).
  destruct (Nat.ltb_spec 0 (length df)) as [_|H]; [|lia].
  split; [reflexivity|]. rewrite <- (Zlt_Qlt 0). lia.
Qed.

(** X3: the win rate is 100 exactly when the table is non-empty and every
    trade has a positive P/L, and it is 0 exactly when no trade has a
    positive P/L (in particular on the empty table). *)
Theorem win_rate_extremes (df : table) :
  ((win_rate df == 100)%Q
   <-> df <> [] /\ forall r, In r df -> (0 < realized_profit_loss r)%Q)
  /\ ((win_rate df == 0)%Q
      <-> forall r, In r df -> (realized_profit_loss r <= 0)%Q).
Proof.
  destruct df as [|r0 rs].
  - split; split.
    + intros H. vm_compute in H. discriminate H.
    + intros [H _]. congruence.
    + intros _ r [].
    + intros _. reflexivity.
  - set (df := r0 :: rs).
    assert (Hne : df <> []) by discriminate.
    destruct (win_rate_positive_total df Hne) as [Hw Hn].
    set (n := inject_Z (Z.of_nat (length df))) in *.
    set (c := inject_Z (Z.of_nat (profitable_trades_count df))) in *.
    assert (Hq : (c / n * n == c)%Q) by (field; lra).
    assert (Hc : (c == n)%Q <-> profitable_trades_count df = length df).
    { unfold c, n. rewrite inject_Z_injective. lia. }
    assert (Hz : (c == 0)%Q <-> profitable_trades_count df = 0%nat).
    { unfold c. change 0%Q with (inject_Z 0). rewrite inject_Z_injective. lia. }
    unfold profitable_trades_count in Hc, Hz.
    rewrite filter_length_all in Hc. rewrite filter_length_none in Hz.
    split; split.
    + intros H. split; [exact Hne|]. intros r Hr. apply mask_gt0_iff.
      apply Hc; [|exact Hr].
      rewrite Hw in H. rewrite <- Hq.
      assert (Hd : (c / n == 1)%Q) by lra. rewrite Hd. lra.
    + intros [_ H]. rewrite Hw.
      assert (Hcn : (c == n)%Q).
      { apply Hc. intros r Hr. apply mask_gt0_iff. now apply H. }
      rewrite Hcn. field. lra.
    + intros H r Hr.
      assert (Hzero : (c == 0)%Q).
      { rewrite Hw in H. rewrite <- Hq.
        assert (Hd : (c / n == 0)%Q) by lra. rewrite Hd. lra. }
      apply Hz with (x := r) in Hzero; [|exact Hr].
      destruct (Qlt_le_dec 0 (realized_profit_loss r)) as [Hlt|Hle]; [|exact Hle].
      apply mask_gt0_iff in Hlt. congruence.
    + intros H. rewrite Hw.
      assert (Hzero : (c == 0)%Q).
      { apply Hz. intros r Hr. destruct (mask_gt0 r) eqn:E; [|reflexivity].
        apply mask_gt0_iff in E. specialize (H r Hr). lra. }
      rewrite Hzero. field. lra.
Qed.

(** ** The average holding period of the summary strip (line 67) *)

Lemma fold_left_Zadd (l : list Z) (a : Z) : fold_left Z.add l a = a + sum_Z l.
Proof.
  unfold sum_Z. revert a. induction l as [|x l IH]; intros a; simpl; [lia|].
  rewrite (IH (a + x)), (IH x). lia.
Qed.

Lemma sum_Z_cons (x : Z) (l : list Z) : sum_Z (x :: l) = x + sum_Z l.
Proof. unfold sum_Z at 1. simpl. apply fold_left_Zadd. Qed.

Lemma sum_Z_bounds (l : list Z) (lo hi : Z) :
  (forall x, In x l -> lo <= x <= hi) ->
  lo * Z.of_nat (length l) <= sum_Z l <= hi * Z.of_nat (length l).
Proof.
  induction l as [|x l IH]; intros H.
  - simpl. unfold sum_Z. simpl. lia.
  - rewrite sum_Z_cons.
    assert (Hx : lo <= x <= hi) by (apply H; now left).
    assert (Hl : lo * Z.of_nat (length l) <= sum_Z l <= hi * Z.of_nat (length l))
      by (apply IH; intros; apply H; now right).
    change (length (x :: l)) with (S (length l)). lia.
Qed.

(** X4: the average holding period is NaN exactly on the empty table;
    otherwise it is the sum of the holding periods divided by the number of
    trades, and it lies between any two bounds that hold for every trade. *)
Theorem avg_holding_period_bounds (df : table) (lo hi : Z) :
  (forall r, In r df -> lo <= holding_period_days r <= hi) ->
  match avg_holding_period df with
  | None => df = []
  | Some v =>
      df <> []
      /\ (v * inject_Z (Z.of_nat (total_trades df))
          == inject_Z (sum_Z (map holding_period_days df)))%Q
      /\ (inject_Z lo <= v)%Q /\ (v <= inject_Z hi)%Q
  end.
Proof.
  intros H. unfold avg_holding_period, mean_Z, total_trades.
  destruct df as [|r0 rs]; [reflexivity|].
  set (df := r0 :: rs) in *.
  change (map holding_period_days df) with
    (holding_period_days r0 :: map holding_period_days rs) at 1.
  cbv iota. rewrite length_map.
  set (s := sum_Z (map holding_period_days df)).
  set (n := Z.of_nat (length df)).
  assert (Hn : 0 < n) by (unfold n, df; simpl length; lia).
  assert (HnQ : (0 < inject_Z n)%Q) by (rewrite <- (Zlt_Qlt 0); exact Hn).
  assert (Hb : lo * n <= s <= hi * n).
  { unfold s, n. rewrite <- (length_map holding_period_days df).
    apply sum_Z_bounds. intros x Hx. apply in_map_iff in Hx.
    destruct Hx as (r & <- & Hr). now apply H. }
  split; [discriminate|]. split; [field; lra|]. split.
  - apply Qle_shift_div_l; [exact HnQ|].
    rewrite <- inject_Z_mult, <- Zle_Qle. lia.
  - apply Qle_shift_div_r; [exact HnQ|].
    rewrite <- inject_Z_mult, <- Zle_Qle. lia.
Qed.

Lemma avg_holding_period_bounds_witness :
  exists v, avg_holding_period example_trades = Some v
            /\ (inject_Z 1 <= v)%Q /\ (v <= inject_Z 10)%Q.
Proof.
  assert (H : forall r, In r example_trades -> 1 <= holding_period_days r <= 10).
  { intros r Hr. simpl in Hr.
    destruct Hr as [<- | [<- | [<- | []]]]; simpl; lia. }
  pose proof (avg_holding_period_bounds example_trades 1 10 H) as Hb.
  destruct (avg_holding_period example_trades) as [v|] eqn:E; [|discriminate Hb].
  exists v. split; [reflexivity|]. destruct Hb as (_ & _ & Hlo & Hhi). now split.
Defined.

(** ** The rankings hold the largest and the smallest totals *)

Lemma StronglySorted_hd {A : Type} (R : A -> A -> Prop) (x : A) (l : list A) :
  StronglySorted R (x :: l) -> forall y, In y l -> R x y.
Proof.
  intros H y Hy. inversion H as [|? ? _ Hall]; subst.
  rewrite Forall_forall in Hall. now apply Hall.
Qed.

Lemma head_outside_below {A : Type} (le : A -> A -> bool) (l s : list A) (n : nat) :
  sorts le l s ->
  forall a x, In a (head n s) -> In x l -> ~ In x (head n s) -> le a x = true.
Proof.
  intros [Hp Hs] a x Ha Hx Hnx. unfold head in *.
  apply (Permutation_in _ Hp) in Hx.
  rewrite <- (firstn_skipn n s) in Hx, Hs.
  apply in_app_or in Hx. destruct Hx as [Hx | Hx]; [contradiction|].
  exact (StronglySorted_app_cross _ _ _ Hs a x Ha Hx).
Qed.

(** X5: the rankings are cut at the right place: an instrument left out of
    the top list has a total P/L no larger than any instrument in it, an
    instrument left out of the bottom list has a total no smaller than any
    instrument in it; the first row of the top list has the largest and the
    first row of the bottom list the smallest total of all instruments. *)
Theorem rankings_hold_the_extremes (sv : sorter) (df : table) :
  let perf := instrument_performance df in
  sorts by_total_pl_descending perf (sv instrument_row by_total_pl_descending perf) ->
  sorts by_total_pl_ascending perf (sv instrument_row by_total_pl_ascending perf) ->
  (forall a x, In a (top_10_profitable sv df) -> In x perf ->
               ~ In x (top_10_profitable sv df) -> (total_pl x <= total_pl a)%Q)
  /\ (forall b x, In b (bottom_10_losing sv df) -> In x perf ->
                  ~ In x (bottom_10_losing sv df) -> (total_pl b <= total_pl x)%Q)
  /\ (forall g, hd_error (top_10_profitable sv df) = Some g ->
                forall x, In x perf -> (total_pl x <= total_pl g)%Q)
  /\ (forall g, hd_error (bottom_10_losing sv df) = Some g ->
                forall x, In x perf -> (total_pl g <= total_pl x)%Q)
  /\ (perf <> [] -> top_10_profitable sv df <> [] /\ bottom_10_losing sv df <> []).
Proof.
  intros perf Hd Hu. unfold top_10_profitable, bottom_10_losing.
  fold perf.
  set (down := sv instrument_row by_total_pl_descending perf) in *.
  set (up := sv instrument_row by_total_pl_ascending perf) in *.
  split.
  { intros a x Ha Hx Hnx. apply Qle_bool_iff.
    exact (head_outside_below _ _ _ _ Hd a x Ha Hx Hnx). }
  split.
  { intros b x Hb Hx Hnx. apply Qle_bool_iff.
    exact (head_outside_below _ _ _ _ Hu b x Hb Hx Hnx). }
  split.
  { intros g Hg x Hx. destruct Hd as [Hp Hs].
    apply (Permutation_in _ Hp) in Hx.
    destruct down as [|g' rest]; [discriminate Hg|].
    simpl in Hg. injection Hg as ->.
    destruct Hx as [<- | Hx]; [apply Qle_refl|].
    apply Qle_bool_iff. exact (StronglySorted_hd _ _ _ Hs x Hx). }
  split.
  { intros g Hg x Hx. destruct Hu as [Hp Hs].
    apply (Permutation_in _ Hp) in Hx.
    destruct up as [|g' rest]; [discriminate Hg|].
    simpl in Hg. injection Hg as ->.
    destruct Hx as [<- | Hx]; [apply Qle_refl|].
    apply Qle_bool_iff. exact (StronglySorted_hd _ _ _ Hs x Hx). }
  intros Hne.
  pose proof (sorts_nonempty _ _ _ Hd Hne) as H1.
  pose proof (sorts_nonempty _ _ _ Hu Hne) as H2.
  split; [destruct down | destruct up]; try congruence; discriminate.
Qed.

Lemma rankings_hold_the_extremes_witness :
  exists g, hd_error (top_10_profitable stable_sort many_instruments) = Some g
            /\ (total_pl (aggregate many_instruments (ticker 3)) <= total_pl g)%Q.
Proof.
  destruct (rankings_hold_the_extremes stable_sort many_instruments) as (_ & _ & H & _).
  - apply stable_sort_sorts;
      [apply by_total_pl_descending_total | apply by_total_pl_descending_trans].
  - apply stable_sort_sorts;
      [apply by_total_pl_ascending_total | apply by_total_pl_ascending_trans].
  - eexists. split; [vm_compute; reflexivity|].
    apply H; [vm_compute; reflexivity|].
    apply in_map. apply group_keys_In. vm_compute. tauto.
Defined.

(** ** The monthly line against the chronological line *)











(** ** What the run renders *)

(** X8: on a well-formed file the page shows exactly four metrics, which
    carry the total P/L, the number of trades, the win rate and the average
    holding period of the loaded table, and exactly six charts, each of
    which plots frames that exist in the store; on a file that is absent or
    unparsable the page has no metric and no chart and no frame was built. *)
Theorem rendered_page (sv : sorter) (f : input_file) :
  let w := snd (run sv f) in
  (forall t, f = WellFormed t ->
     filter is_metric (page w)
     = [ UiMetric "Total Realized P/L" (Dollars (total_realized_pl t));
         UiMetric "Total Closed Trades" (Count (total_trades t));
         UiMetric "Win Rate" (Percent (win_rate t));
         UiMetric "Avg Holding Period" (Days (avg_holding_period t)) ]
     /\ length (filter is_chart (page w)) = 6%nat
     /\ (forall e r, In e (page w) -> In r (chart_data e) -> frame_at r w <> None))
  /\ (unavailable f = true ->
      filter is_metric (page w) = [] /\ filter is_chart (page w) = [] /\ heap w = []).
Proof.
  intros w. subst w. destruct f as [| | | | | t].
  - rewrite run_NoFile. split; [discriminate|]. intros _. repeat split.
  - rewrite (run_unparsable sv EmptyFile EmptyDataError) by (reflexivity || discriminate).
    split; [discriminate|]. intros _. repeat split.
  - rewrite (run_unparsable sv MalformedCsv ParserError) by (reflexivity || discriminate).
    split; [discriminate|]. intros _. repeat split.
  - rewrite (run_unparsable sv NoSellDateColumn KeyError) by (reflexivity || discriminate).
    split; [discriminate|]. intros _. repeat split.
  - rewrite (run_unparsable sv BadDateCell DateParseError) by (reflexivity || discriminate).
    split; [discriminate|]. intros _. repeat split.
  - rewrite run_WellFormed. cbn [snd page unavailable].
    split; [|discriminate].
    intros t' [= <-].
    split; [reflexivity|]. split; [reflexivity|].
    intros e r He Hr. unfold final_page in He. unfold frame_at, final_heap. cbn [heap].
    simpl in He.
    repeat (destruct He as [<- | He];
            [cbn [chart_data] in Hr; simpl in Hr;
             repeat (destruct Hr as [<- | Hr]; [discriminate|]); destruct Hr|]).
    destruct He.
Qed.

(** ** The order of the monthly buckets *)





(** ** What does not depend on the order of same-day trades *)





